(** * handle.hpp: an RAII wrapper around Windows API handles

    A shallow embedding of [src/handle.hpp].  The header has two layers:

    - a compile-time layer (the [HandleType] tags, the two concepts
      [HandleValueNull] / [HandleValueInvalid], [TaggedHandle], the
      [HandleTraits] specialisations and the [CREATE_HANDLE_TRAITS] macro),
      embedded as total functions whose result type [Build] records whether
      the template instantiation compiles, member by member;
    - a run-time layer (the class [Handle<_Ty>]), embedded as a small state
      monad over the wrapper's single data member [m_Handle] together with
      the trace of what the member functions do: calls of the operating
      system's release routine and stores to [m_Handle]. *)

From Stdlib Require Import ZArith List String Bool.
Import ListNotations.
Local Open Scope Z_scope.

(** ** Raw values *)

(** [HANDLE], [SOCKET], [HKEY], ... are all one machine word wide.  A raw
    value is represented by the signed ([LONG_PTR]) reading of that word, so
    that the two distinguished values do not depend on the pointer width. *)
Definition HANDLE : Type := Z.

Definition nullptr : HANDLE := 0.

(** Modelled from the spec: [windows.h] is not part of the sources.  The spec
    calls this value the all-ones "invalid" marker; in the signed reading of
    the word that is [-1] (the SDK writes it [(HANDLE)(LONG_PTR)-1]). *)
Definition INVALID_HANDLE_VALUE : HANDLE := -1.

(** ** Compile-time layer *)

(** Outcome of instantiating a template: either the entity it denotes, or a
    diagnostic, in which case no object file is produced. *)
Inductive Build (A : Type) : Type :=
| Compiled (a : A)
| CompileError (diagnostic : string).
Arguments Compiled {A} a.
Arguments CompileError {A} diagnostic.

Definition compiles {A : Type} (b : Build A) : bool :=
  match b with Compiled _ => true | CompileError _ => false end.

Module HandleType.

(** The thirteen tag structs of [namespace HandleType]; [UserTag] stands for
    any other type a translation unit passes as [_Tag]. *)
Inductive Tag : Type :=
| Event | Mutex | Semaphore | Process | Thread
| IoCompletionPort | Job | WaitableTimer
| File | NamedPipe | MailSlot | FileMapping | Snapshot
| UserTag (name : string).

End HandleType.
Import HandleType.

(** [concept HandleValueNull]: a disjunction of seven [std::is_same_v]. *)
Definition HandleValueNull (_Tag : Tag) : bool :=
  match _Tag with
  | Event | Mutex | Process | Thread | Job | WaitableTimer
  | IoCompletionPort => true
  | _ => false
  end.

(** [concept HandleValueInvalid]: a disjunction of five [std::is_same_v]. *)
Definition HandleValueInvalid (_Tag : Tag) : bool :=
  match _Tag with
  | File | NamedPipe | FileMapping | MailSlot | Snapshot => true
  | _ => false
  end.

(** [TaggedHandle<_Tag>::GetHandleInvalidValue]: an [if constexpr] chain
    whose last branch is a [static_assert] that cannot hold. *)
Definition GetHandleInvalidValue (_Tag : Tag) : Build HANDLE :=
  if HandleValueNull _Tag then Compiled nullptr
  else if HandleValueInvalid _Tag then Compiled INVALID_HANDLE_VALUE
  else CompileError "Unhandled handle type".

(** The release routines named in the header; all are external. *)
Inductive CloseFunction : Type :=
| CloseHandle | closesocket | RegCloseKey | DestroyWindow | DestroyMenu
| DestroyIcon | DeleteDC | DeleteObject | FreeLibrary.

(** The traits as the run-time members of the wrapper use them: the value of
    the static member [InvalidHandleValue] and the routine that [Close]
    forwards to.  [Valid] has the same body in every specialisation and is
    defined once below. *)
Record Traits : Type := {
  InvalidHandleValue : HANDLE;
  handleCloseFunction : CloseFunction
}.

(** The macro [CREATE_HANDLE_TRAITS(type, invalidHandleValue, handleCloseFunction)]. *)
Definition CREATE_HANDLE_TRAITS (invalidHandleValue : HANDLE)
    (closeFunction : CloseFunction) : Traits :=
  {| InvalidHandleValue := invalidHandleValue;
     handleCloseFunction := closeFunction |}.

(** The types [Handle<_Ty>] can be instantiated with: a [TaggedHandle], one of
    the eleven types the macro is applied to, or [OtherType], any type for
    which the header has no specialisation. *)
Inductive Ty : Type :=
| TaggedHandle (_Tag : Tag)
| SOCKET | HKEY | HWND | HMENU | HICON | HDC | HBITMAP | HPEN | HBRUSH
| HPALETTE | HINSTANCE
| OtherType (name : string).

(** A specialisation of [HandleTraits] as a class: the initialiser of its
    static member [InvalidHandleValue], which may or may not compile, and
    the routine its [Close] calls.  Its [Valid] compares with
    [InvalidHandleValue]. *)
Record TraitsClass : Type := {
  InvalidHandleValue_initialiser : Build HANDLE;
  Close_calls_function : CloseFunction
}.

(** The class the macro generates: its initialiser is a constant. *)
Definition generated_class (T : Traits) : TraitsClass :=
  {| InvalidHandleValue_initialiser := Compiled (InvalidHandleValue T);
     Close_calls_function := handleCloseFunction T |}.

(** [HandleTraits<_Ty>]: the primary template is only declared, hence an
    incomplete type; the partial specialisation for [TaggedHandle<_Tag>] is
    a complete class for every tag, with [InvalidHandleValue] initialised
    from [GetHandleInvalidValue()] and [Close] calling [::CloseHandle]; the
    rest come from the macro. *)
Definition HandleTraits (_Ty : Ty) : Build TraitsClass :=
  match _Ty with
  | TaggedHandle _Tag =>
      Compiled {| InvalidHandleValue_initialiser := GetHandleInvalidValue _Tag;
                  Close_calls_function := CloseHandle |}
  | SOCKET    => Compiled (generated_class (CREATE_HANDLE_TRAITS 0 closesocket))
  | HKEY      => Compiled (generated_class (CREATE_HANDLE_TRAITS nullptr RegCloseKey))
  | HWND      => Compiled (generated_class (CREATE_HANDLE_TRAITS nullptr DestroyWindow))
  | HMENU     => Compiled (generated_class (CREATE_HANDLE_TRAITS nullptr DestroyMenu))
  | HICON     => Compiled (generated_class (CREATE_HANDLE_TRAITS nullptr DestroyIcon))
  | HDC       => Compiled (generated_class (CREATE_HANDLE_TRAITS nullptr DeleteDC))
  | HBITMAP   => Compiled (generated_class (CREATE_HANDLE_TRAITS nullptr DeleteObject))
  | HPEN      => Compiled (generated_class (CREATE_HANDLE_TRAITS nullptr DeleteObject))
  | HBRUSH    => Compiled (generated_class (CREATE_HANDLE_TRAITS nullptr DeleteObject))
  | HPALETTE  => Compiled (generated_class (CREATE_HANDLE_TRAITS nullptr DeleteObject))
  | HINSTANCE => Compiled (generated_class (CREATE_HANDLE_TRAITS nullptr FreeLibrary))
  | OtherType _ => CompileError "incomplete type HandleTraits"
  end.

(** The members of a traits class a wrapper can name. *)
Inductive TraitsMember : Type :=
| Traits_InvalidHandleValue
| Traits_Valid_member
| Traits_Close_member.

(** Naming a member of [HandleTraits<_Ty>] needs the class complete.
    [InvalidHandleValue] then needs its initialiser, and so does [Valid],
    whose body reads it; [Close] needs nothing more. *)
Definition instantiate_Traits (_Ty : Ty) (tm : TraitsMember) : Build unit :=
  match HandleTraits _Ty with
  | CompileError d => CompileError d
  | Compiled C =>
      match tm with
      | Traits_Close_member => Compiled tt
      | Traits_InvalidHandleValue | Traits_Valid_member =>
          match InvalidHandleValue_initialiser C with
          | Compiled _ => Compiled tt
          | CompileError d => CompileError d
          end
      end
  end.

(** [using Traits = HandleTraits<_Ty>] inside [Handle<_Ty>], for the members
    that run: the class complete and its sentinel initialised. *)
Definition Handle_Traits (_Ty : Ty) : Build Traits :=
  match HandleTraits _Ty with
  | CompileError d => CompileError d
  | Compiled C =>
      match InvalidHandleValue_initialiser C with
      | Compiled v =>
          Compiled {| InvalidHandleValue := v;
                      handleCloseFunction := Close_calls_function C |}
      | CompileError d => CompileError d
      end
  end.

(** The two ways a category can be registered with the header. *)
Definition has_macro_entry (_Ty : Ty) : bool :=
  match _Ty with
  | TaggedHandle _ | OtherType _ => false
  | _ => true
  end.

Definition in_sentinel_family (_Ty : Ty) : bool :=
  match _Ty with
  | TaggedHandle _Tag => HandleValueNull _Tag || HandleValueInvalid _Tag
  | _ => false
  end.

(** ** Run-time layer *)

(** What a member function of the wrapper can do to the outside. *)
Inductive Effect : Type :=
| Call (f : CloseFunction) (arg : HANDLE)
| Store (v : HANDLE).

(** A wrapper object: its data member and the trace of its member functions
    so far. *)
Record Object : Type := {
  m_Handle : HANDLE;
  trace : list Effect
}.

Definition M (A : Type) : Type := Object -> A * Object.

Definition ret {A : Type} (a : A) : M A := fun s => (a, s).

Definition bind {A B : Type} (c : M A) (k : A -> M B) : M B :=
  fun s => let (a, s') := c s in k a s'.

Notation "x <- c ;; k" := (bind c (fun x => k))
  (at level 61, c at next level, right associativity).
Notation "c ;; k" := (bind c (fun _ => k))
  (at level 61, right associativity).

Definition get_m_Handle : M HANDLE := fun s => (m_Handle s, s).

Definition set_m_Handle (v : HANDLE) : M unit :=
  fun s => (tt, {| m_Handle := v; trace := trace s ++ [Store v] |}).

Definition call (f : CloseFunction) (arg : HANDLE) : M unit :=
  fun s => (tt, {| m_Handle := m_Handle s; trace := trace s ++ [Call f arg] |}).

Definition result {A : Type} (c : M A) (s : Object) : A := fst (c s).
Definition exec {A : Type} (c : M A) (s : Object) : Object := snd (c s).

(** The release calls of a trace, in order. *)
Fixpoint calls (tr : list Effect) : list (CloseFunction * HANDLE) :=
  match tr with
  | [] => []
  | Call f a :: tr' => (f, a) :: calls tr'
  | Store _ :: tr' => calls tr'
  end.

Section Wrapper.

(** [using Traits = HandleTraits<_Ty>], once it is complete. *)
Variable T : Traits.

(** [Traits::Valid]. *)
Definition Traits_Valid (handle : HANDLE) : bool :=
  negb (handle =? InvalidHandleValue T).

(** [Traits::Close]. *)
Definition Traits_Close (handle : HANDLE) : M unit :=
  call (handleCloseFunction T) handle.

(** [Handle(Type handle = Traits::InvalidHandleValue)]. *)
Definition Handle_ctor (handle : option HANDLE) : Object :=
  {| m_Handle := match handle with
                 | Some h => h
                 | None => InvalidHandleValue T
                 end;
     trace := [] |}.

(** [bool Valid() const]. *)
Definition Valid : M bool :=
  h <- get_m_Handle ;; ret (Traits_Valid h).

(** [void Close()]. *)
Definition Close : M unit :=
  h <- get_m_Handle ;;
  if Traits_Valid h then
    (h' <- get_m_Handle ;; Traits_Close h') ;;
    set_m_Handle (InvalidHandleValue T)
  else ret tt.

(** [Handle& operator=(Type handle)]. *)
Definition assign (handle : HANDLE) : M unit :=
  v <- Valid ;;
  (if v then Close else ret tt) ;;
  set_m_Handle handle.

(** [~Handle()]. *)
Definition Handle_dtor : M unit := Close.

(** [operator Type() const]. *)
Definition operator_Type : M HANDLE := get_m_Handle.

(** [Type Get() const]. *)
Definition Get : M HANDLE := get_m_Handle.

(** The operations a client applies to a live wrapper. *)
Inductive Op : Type :=
| OpClose
| OpAssign (raw : HANDLE).

Definition step (o : Op) : M unit :=
  match o with
  | OpClose => Close
  | OpAssign raw => assign raw
  end.

Fixpoint steps (os : list Op) : M unit :=
  match os with
  | [] => ret tt
  | o :: os' => step o ;; steps os'
  end.

(** A whole life: construction, the client's operations, destruction. *)
Definition lifetime (raw : option HANDLE) (os : list Op) : Object :=
  exec (steps os ;; Handle_dtor) (Handle_ctor raw).

(** The raw values a wrapper is given during such a life, in order: the
    constructor's argument, if any, and the assigned values. *)
Fixpoint assigned (os : list Op) : list HANDLE :=
  match os with
  | [] => []
  | OpClose :: os' => assigned os'
  | OpAssign raw :: os' => raw :: assigned os'
  end.

Definition adopted (raw : option HANDLE) (os : list Op) : list HANDLE :=
  match raw with
  | Some h => [h]
  | None => []
  end ++ assigned os.

(** The release call a valid value is owed. *)
Definition release (h : HANDLE) : CloseFunction * HANDLE :=
  (handleCloseFunction T, h).

Definition owed (hs : list HANDLE) : list (CloseFunction * HANDLE) :=
  map release (filter Traits_Valid hs).

End Wrapper.

(** The member functions of [template<typename _Ty> class Handle]. *)
Inductive Member : Type :=
| Ctor_default      (* Handle()             : the default argument is used *)
| Ctor_raw          (* Handle(Type handle)                                 *)
| Assign            (* operator=(Type handle)                              *)
| Dtor              (* ~Handle()                                           *)
| Member_Valid      (* Valid()                                             *)
| Member_Close      (* Close()                                             *)
| Conversion        (* operator Type()                                     *)
| Member_Get        (* Get()                                               *)
| AddressOf.        (* operator&()                                         *)

(** The members of [Traits] the body of [Valid()] and of [Close()] name. *)
Definition named_by_Valid : list TraitsMember := [Traits_Valid_member].

Definition named_by_Close : list TraitsMember :=
  [Traits_Valid_member; Traits_Close_member; Traits_InvalidHandleValue].

(** The members of [Traits] a member of the wrapper needs: the default
    argument is [Traits::InvalidHandleValue]; [operator=] calls [Valid()]
    and [Close()]; the destructor calls [Close()].  The other members only
    touch [m_Handle]. *)
Definition named (m : Member) : list TraitsMember :=
  match m with
  | Ctor_default => [Traits_InvalidHandleValue]
  | Ctor_raw => []
  | Assign => named_by_Valid ++ named_by_Close
  | Dtor => named_by_Close
  | Member_Valid => named_by_Valid
  | Member_Close => named_by_Close
  | Conversion | Member_Get | AddressOf => []
  end.

Fixpoint first_error (bs : list (Build unit)) : Build unit :=
  match bs with
  | [] => Compiled tt
  | Compiled _ :: bs' => first_error bs'
  | CompileError d :: _ => CompileError d
  end.

(** A member of a class template is instantiated when it is used, and then
    everything it names must be. *)
Definition instantiate (_Ty : Ty) (m : Member) : Build unit :=
  first_error (map (instantiate_Traits _Ty) (named m)).

(** The members that name nothing of [Traits]. *)
Definition traits_free (m : Member) : bool :=
  match m with
  | Ctor_raw | Conversion | Member_Get | AddressOf => true
  | _ => false
  end.

(** A translation unit is built when every member it uses compiles. *)
Definition builds (_Ty : Ty) (used : list Member) : bool :=
  forallb (fun m => compiles (instantiate _Ty m)) used.

(** The members a definition [Handle<_Ty> h;] or [Handle<_Ty> h = raw;]
    uses: the constructor, and the destructor for the end of the scope. *)
Definition object_definition (init : option HANDLE) : list Member :=
  [match init with None => Ctor_default | Some _ => Ctor_raw end; Dtor].

(** The first block of [namespace HandleType]: the tags of which the
    header's comment says that they default to [NULL]. *)
Definition null_family : list Tag :=
  [Event; Mutex; Semaphore; Process; Thread; IoCompletionPort; Job;
   WaitableTimer].

(** What holds of a category that resolves to the null sentinel: the traits
    compile, their sentinel is [nullptr], and a wrapper constructed without
    an argument holds it and is not valid. *)
Definition resolves_to_null (_Tag : Tag) : bool :=
  match Handle_Traits (TaggedHandle _Tag) with
  | Compiled T =>
      (InvalidHandleValue T =? nullptr)
      && (m_Handle (Handle_ctor T None) =? nullptr)
      && negb (result (Valid T) (Handle_ctor T None))
  | CompileError _ => false
  end.

(** How often a raw value occurs among release calls and among raw values. *)
Definition times_released (h : HANDLE) (tr : list Effect) : nat :=
  List.length (filter (fun c => snd c =? h) (calls tr)).

Definition times_adopted (h : HANDLE) (hs : list HANDLE) : nat :=
  List.length (filter (fun x => x =? h) hs).

(** ** The rest of the header and its caller *)

(** [GetHandleInvalidValue] with the two branches of its [if constexpr]
    chain in the other order. *)
Definition GetHandleInvalidValue_swapped (_Tag : Tag) : Build HANDLE :=
  if HandleValueInvalid _Tag then Compiled INVALID_HANDLE_VALUE
  else if HandleValueNull _Tag then Compiled nullptr
  else CompileError "Unhandled handle type".

(** [Type* operator&()]: the address of [m_Handle].  The wrapper has one
    slot, so there is one such address; taking it reads and writes
    nothing. *)
Inductive Pointer : Type :=
| address_of_m_Handle.

Definition operator_address_of : M Pointer := ret address_of_m_Handle.

(** [*p = v] for the pointer [operator&] returns: what a routine with an
    out-parameter does with it.  The slot is overwritten; no member function
    of the wrapper runs. *)
Definition write_through (p : Pointer) (v : HANDLE) : M unit :=
  match p with
  | address_of_m_Handle => set_m_Handle v
  end.

(** Two objects of one program append to one trace: the object [o], at a
    point where the program's trace so far is [log]. *)
Definition at_log (log : list Effect) (o : Object) : Object :=
  {| m_Handle := m_Handle o; trace := log |}.

(** The exit statuses of [<cstdlib>]. *)
Definition EXIT_SUCCESS : Z := 0.
Definition EXIT_FAILURE : Z := 1.

Definition newline : string := String (Ascii.ascii_of_nat 10) EmptyString.

(** What a run of [main] leaves behind. *)
Record Outcome : Type := {
  exit_code : Z;
  cout : list string;
  effects : list Effect
}.

(** The body of [main], over the traits of [ProcessHandle] and [FileHandle]
    and over what [OpenProcess] and [CreateFile] return.  The objects are
    destroyed at each [return], in the reverse order of their
    construction. *)
Definition main_body (ProcessTraits FileTraits : Traits)
    (OpenProcess_result CreateFile_result : HANDLE) : Outcome :=
  let paint := Handle_ctor ProcessTraits None in
  let paint := exec (assign ProcessTraits OpenProcess_result) paint in
  if negb (result (Valid ProcessTraits) paint) then
    let paint := exec (Handle_dtor ProcessTraits) paint in
    {| exit_code := EXIT_FAILURE;
       cout := [append "Failed to create process handle" newline];
       effects := trace paint |}
  else
    let fileHandle :=
      at_log (trace paint) (Handle_ctor FileTraits (Some CreateFile_result)) in
    if negb (result (Valid FileTraits) fileHandle) then
      let fileHandle := exec (Handle_dtor FileTraits) fileHandle in
      let paint :=
        exec (Handle_dtor ProcessTraits) (at_log (trace fileHandle) paint) in
      {| exit_code := EXIT_FAILURE;
         cout := [append "Failed to create file handle" newline];
         effects := trace paint |}
    else
      let fileHandle := exec (Handle_dtor FileTraits) fileHandle in
      let paint :=
        exec (Handle_dtor ProcessTraits) (at_log (trace fileHandle) paint) in
      {| exit_code := EXIT_SUCCESS; cout := []; effects := trace paint |}.

(** [main]: it uses [ProcessHandle] and [FileHandle], so it is built when
    the traits of both are. *)
Definition main : Build (HANDLE -> HANDLE -> Outcome) :=
  match Handle_Traits (TaggedHandle Process),
        Handle_Traits (TaggedHandle File) with
  | Compiled ProcessTraits, Compiled FileTraits =>
      Compiled (main_body ProcessTraits FileTraits)
  | CompileError d, _ => CompileError d
  | _, CompileError d => CompileError d
  end.

(** * Properties *)

(** ** Traces *)

Lemma calls_app (tr1 tr2 : list Effect) :
  calls (tr1 ++ tr2) = calls tr1 ++ calls tr2.
Proof.
  induction tr1 as [|e tr1 IH]; simpl.
  - reflexivity.
  - destruct e; simpl; now rewrite IH.
Qed.

(** ** The trait resolver *)

(** C1 (fails on the code for Semaphore).  Of the eight categories of the
    null family, seven resolve to the null sentinel, with a wrapper
    constructed without an argument holding it and reporting
    [Valid() == false]; [Semaphore] is missing from [HandleValueNull], so its
    sentinel does not resolve at all and a definition of a
    [Handle<TaggedHandle<Semaphore>>] object is a compile error. *)
Theorem C1_Semaphore_missing_from_HandleValueNull :
  In Semaphore null_family
  /\ HandleValueNull Semaphore = false
  /\ GetHandleInvalidValue Semaphore = CompileError "Unhandled handle type"
  /\ HandleTraits (TaggedHandle Semaphore)
     = Compiled {| InvalidHandleValue_initialiser :=
                     CompileError "Unhandled handle type";
                   Close_calls_function := CloseHandle |}
  /\ Handle_Traits (TaggedHandle Semaphore)
     = CompileError "Unhandled handle type"
  /\ builds (TaggedHandle Semaphore) (object_definition None) = false
  /\ resolves_to_null Semaphore = false
  /\ map resolves_to_null null_family
     = [true; true; false; true; true; true; true; true].
Proof.
  repeat split; try reflexivity.
  simpl. tauto.
Qed.

Lemma registered_compiles (_Ty : Ty) :
  compiles (Handle_Traits _Ty) = has_macro_entry _Ty || in_sentinel_family _Ty.
Proof.
  destruct _Ty as [tag| | | | | | | | | | | |name]; try reflexivity.
  unfold Handle_Traits, HandleTraits, GetHandleInvalidValue. simpl.
  destruct (HandleValueNull tag); [reflexivity|].
  now destruct (HandleValueInvalid tag).
Qed.

Lemma instantiate_compiles (_Ty : Ty) (m : Member) :
  compiles (instantiate _Ty m)
  = traits_free m || compiles (Handle_Traits _Ty).
Proof.
  unfold instantiate, instantiate_Traits, Handle_Traits.
  destruct (HandleTraits _Ty) as [C|d].
  - destruct (InvalidHandleValue_initialiser C); now destruct m.
  - now destruct m.
Qed.

Lemma builds_traits_free (_Ty : Ty) (used : list Member) :
  compiles (Handle_Traits _Ty) = false ->
  builds _Ty used = forallb traits_free used.
Proof.
  intros Hc. unfold builds. induction used as [|m used IH]; simpl.
  - reflexivity.
  - now rewrite IH, instantiate_compiles, Hc, orb_false_r.
Qed.

(** C7 (as stated, fails on the code).  A translation unit can create a
    wrapper of an unregistered category and be built, as long as it uses
    only the constructor from a raw value, [Get], the conversion and
    [operator&]: these name nothing of the traits. *)
Lemma C7_counterexample :
  has_macro_entry (OtherType "int") = false
  /\ in_sentinel_family (OtherType "int") = false
  /\ builds (OtherType "int") [Ctor_raw; Member_Get] = true
  /\ has_macro_entry (TaggedHandle Semaphore) = false
  /\ in_sentinel_family (TaggedHandle Semaphore) = false
  /\ builds (TaggedHandle Semaphore) [Ctor_raw; Member_Get] = true.
Proof. repeat split. Qed.

(** C7 (amended).  For a category that has neither a macro-generated
    [HandleTraits] entry nor a place in one of the two sentinel families,
    [Traits::InvalidHandleValue] and [Traits::Valid] are compile errors
    ([Traits::Close] compiles for a tagged category and only there), and of
    the wrapper's members exactly default construction, assignment,
    destruction, [Valid] and [Close] are compile errors; so a translation
    unit is built exactly when it uses none of these, and never when it
    defines a wrapper object, whatever else it uses.  The constructor from a
    raw value, which does compile, does not depend on the traits.  For a
    category registered in one of the two ways every member compiles. *)
Theorem C7_members_that_need_the_traits_are_compile_errors (_Ty : Ty) :
  (has_macro_entry _Ty = false -> in_sentinel_family _Ty = false ->
   map (fun tm => compiles (instantiate_Traits _Ty tm))
       [Traits_InvalidHandleValue; Traits_Valid_member; Traits_Close_member]
   = [false; false;
      match _Ty with TaggedHandle _ => true | _ => false end]
   /\ map (fun m => compiles (instantiate _Ty m))
          [Ctor_default; Ctor_raw; Assign; Dtor; Member_Valid; Member_Close;
           Conversion; Member_Get; AddressOf]
      = [false; true; false; false; false; false; true; true; true]
   /\ (forall used, builds _Ty used = forallb traits_free used)
   /\ (forall init used,
         builds _Ty (object_definition init ++ used) = false)
   /\ (forall (T1 T2 : Traits) (h : HANDLE),
         Handle_ctor T1 (Some h) = Handle_ctor T2 (Some h)))
  /\ (has_macro_entry _Ty || in_sentinel_family _Ty = true ->
      (exists T, Handle_Traits _Ty = Compiled T)
      /\ forall used, builds _Ty used = true).
Proof.
  pose proof (registered_compiles _Ty) as Hc. split.
  - intros Hm Hf. rewrite Hm, Hf in Hc. simpl in Hc. split; [|split].
    + destruct _Ty as [tag| | | | | | | | | | | |name]; try discriminate Hm.
      * simpl in Hf. apply orb_false_elim in Hf as [Hn Hi].
        unfold instantiate_Traits, HandleTraits, GetHandleInvalidValue.
        simpl. now rewrite Hn, Hi.
      * reflexivity.
    + simpl. rewrite !instantiate_compiles, Hc. reflexivity.
    + split; [|split].
      * intros used. now apply builds_traits_free.
      * intros init used. rewrite (builds_traits_free _ _ Hc).
        unfold object_definition. rewrite forallb_app. simpl.
        now rewrite andb_false_r.
      * reflexivity.
  - intros Hr. rewrite Hr in Hc. split.
    + destruct (Handle_Traits _Ty) as [T|d]; [now exists T | discriminate Hc].
    + intros used. unfold builds. apply forallb_forall. intros m _.
      rewrite instantiate_compiles, Hc. apply orb_true_r.
Qed.

Lemma C7_witness :
  (has_macro_entry (TaggedHandle (UserTag "Fiber")) = false
   /\ in_sentinel_family (TaggedHandle (UserTag "Fiber")) = false
   /\ builds (TaggedHandle (UserTag "Fiber"))
             (object_definition (Some 42) ++ [Member_Get]) = false)
  /\ (has_macro_entry (OtherType "int") = false
      /\ in_sentinel_family (OtherType "int") = false
      /\ builds (OtherType "int") (object_definition None ++ []) = false)
  /\ (has_macro_entry (TaggedHandle File)
      || in_sentinel_family (TaggedHandle File) = true
      /\ builds (TaggedHandle File) (object_definition None) = true).
Proof.
  split; [|split].
  - split; [reflexivity|]. split; [reflexivity|].
    exact (proj1 (proj2 (proj2 (proj2
             (proj1 (C7_members_that_need_the_traits_are_compile_errors
                       (TaggedHandle (UserTag "Fiber")))
                    eq_refl eq_refl))))
                 (Some 42) [Member_Get]).
  - split; [reflexivity|]. split; [reflexivity|].
    exact (proj1 (proj2 (proj2 (proj2
             (proj1 (C7_members_that_need_the_traits_are_compile_errors
                       (OtherType "int"))
                    eq_refl eq_refl))))
                 None []).
  - split; [reflexivity|].
    exact (proj2 (proj2 (C7_members_that_need_the_traits_are_compile_errors
                           (TaggedHandle File)) eq_refl)
                 (object_definition None)).
Defined.

(** C10.  For each of the twelve tagged categories the resolved traits close
    with [CloseHandle]; the tag decides the sentinel ([nullptr] for the first
    seven, [INVALID_HANDLE_VALUE] for the last five) and nothing else, and
    the same holds of any tag whose traits compile.  The traits class of
    every tag at all has [CloseHandle] as what its [Close] calls. *)
Theorem C10_tagged_categories_close_with_CloseHandle :
  map (fun tag => Handle_Traits (TaggedHandle tag))
      [Event; Mutex; Process; Thread; Job; WaitableTimer; IoCompletionPort;
       File; NamedPipe; MailSlot; FileMapping; Snapshot]
  = map (fun v => Compiled (CREATE_HANDLE_TRAITS v CloseHandle))
      [nullptr; nullptr; nullptr; nullptr; nullptr; nullptr; nullptr;
       INVALID_HANDLE_VALUE; INVALID_HANDLE_VALUE; INVALID_HANDLE_VALUE;
       INVALID_HANDLE_VALUE; INVALID_HANDLE_VALUE]
  /\ (forall tag,
        match Handle_Traits (TaggedHandle tag) with
        | Compiled T =>
            T = CREATE_HANDLE_TRAITS (InvalidHandleValue T) CloseHandle
        | CompileError _ => True
        end)
  /\ forall tag,
       HandleTraits (TaggedHandle tag)
       = Compiled {| InvalidHandleValue_initialiser :=
                       GetHandleInvalidValue tag;
                     Close_calls_function := CloseHandle |}.
Proof.
  split; [reflexivity|]. split; [|reflexivity].
  intros tag. unfold Handle_Traits, HandleTraits. simpl.
  destruct (GetHandleInvalidValue tag); [reflexivity | exact I].
Qed.

(** ** The owning wrapper *)

Section WrapperFacts.

Variable T : Traits.

Lemma Traits_Valid_true (h : HANDLE) :
  Traits_Valid T h = true <-> h <> InvalidHandleValue T.
Proof.
  unfold Traits_Valid. rewrite negb_true_iff. apply Z.eqb_neq.
Qed.

Lemma Traits_Valid_false (h : HANDLE) :
  Traits_Valid T h = false <-> h = InvalidHandleValue T.
Proof.
  unfold Traits_Valid. rewrite negb_false_iff. apply Z.eqb_eq.
Qed.

Lemma Traits_Valid_sentinel : Traits_Valid T (InvalidHandleValue T) = false.
Proof. now apply Traits_Valid_false. Qed.

Lemma Valid_run (s : Object) :
  Valid T s = (Traits_Valid T (m_Handle s), s).
Proof. reflexivity. Qed.

(** [Close] on a valid wrapper: one call, then one store of the sentinel. *)
Lemma Close_valid (s : Object) :
  Traits_Valid T (m_Handle s) = true ->
  exec (Close T) s
  = {| m_Handle := InvalidHandleValue T;
       trace := trace s ++ [Call (handleCloseFunction T) (m_Handle s);
                            Store (InvalidHandleValue T)] |}.
Proof.
  intros Hv. unfold exec, Close, bind, get_m_Handle. rewrite Hv.
  simpl. now rewrite <- app_assoc.
Qed.

(** [Close] on an invalid wrapper does nothing. *)
Lemma Close_invalid (s : Object) :
  Traits_Valid T (m_Handle s) = false -> exec (Close T) s = s.
Proof.
  intros Hv. unfold exec, Close, bind, get_m_Handle. now rewrite Hv.
Qed.

Lemma assign_valid (raw : HANDLE) (s : Object) :
  Traits_Valid T (m_Handle s) = true ->
  exec (assign T raw) s
  = {| m_Handle := raw;
       trace := trace s ++ [Call (handleCloseFunction T) (m_Handle s);
                            Store (InvalidHandleValue T); Store raw] |}.
Proof.
  intros Hv. unfold exec, assign, bind. rewrite Valid_run, Hv.
  pose proof (Close_valid s Hv) as Hc. unfold exec in Hc.
  destruct (Close T s) as [u s']. simpl in Hc. subst s'.
  simpl. now rewrite <- app_assoc.
Qed.

Lemma assign_invalid (raw : HANDLE) (s : Object) :
  Traits_Valid T (m_Handle s) = false ->
  exec (assign T raw) s
  = {| m_Handle := raw; trace := trace s ++ [Store raw] |}.
Proof.
  intros Hv. unfold exec, assign, bind. now rewrite Valid_run, Hv.
Qed.

(** Whatever the wrapper holds, [Close] makes exactly the calls that value
    is owed and leaves the sentinel behind. *)
Lemma Close_calls (s : Object) :
  calls (trace (exec (Close T) s))
  = calls (trace s) ++ owed T [m_Handle s]
  /\ m_Handle (exec (Close T) s) = InvalidHandleValue T.
Proof.
  unfold owed. simpl.
  destruct (Traits_Valid T (m_Handle s)) eqn:Hv.
  - rewrite (Close_valid s Hv). simpl. rewrite calls_app. now split.
  - rewrite (Close_invalid s Hv). simpl. rewrite app_nil_r.
    split; [reflexivity | now apply Traits_Valid_false].
Qed.

Lemma assign_calls (raw : HANDLE) (s : Object) :
  calls (trace (exec (assign T raw) s))
  = calls (trace s) ++ owed T [m_Handle s]
  /\ m_Handle (exec (assign T raw) s) = raw.
Proof.
  unfold owed. simpl.
  destruct (Traits_Valid T (m_Handle s)) eqn:Hv.
  - rewrite (assign_valid raw s Hv). simpl. rewrite calls_app. now split.
  - rewrite (assign_invalid raw s Hv). simpl. rewrite calls_app. simpl.
    now split.
Qed.

Lemma exec_bind {A B : Type} (c : M A) (k : M B) (s : Object) :
  exec (c ;; k) s = exec k (exec c s).
Proof.
  unfold exec, bind. now destruct (c s).
Qed.

Lemma owed_cons (h : HANDLE) (hs : list HANDLE) :
  owed T (h :: hs) = owed T [h] ++ owed T hs.
Proof.
  unfold owed. simpl. now destruct (Traits_Valid T h).
Qed.

Lemma owed_sentinel : owed T [InvalidHandleValue T] = [].
Proof.
  unfold owed. simpl. now rewrite Traits_Valid_sentinel.
Qed.

(** The invariant of a live wrapper: of the values adopted so far, each
    valid one has had its release call, except the one currently held. *)
Lemma steps_calls (os : list Op) (s : Object) :
  calls (trace (exec (steps T os) s))
    ++ owed T [m_Handle (exec (steps T os) s)]
  = calls (trace s) ++ owed T (m_Handle s :: assigned os).
Proof.
  revert s. induction os as [|o os IH]; intros s.
  - reflexivity.
  - simpl steps. rewrite exec_bind, IH. destruct o as [|raw]; simpl step.
    + destruct (Close_calls s) as [Hc Hm]. rewrite Hc, Hm. simpl assigned.
      rewrite (owed_cons (InvalidHandleValue T)), owed_sentinel, app_nil_l.
      rewrite (owed_cons (m_Handle s) (assigned os)).
      now rewrite <- app_assoc.
    + destruct (assign_calls raw s) as [Hc Hm]. rewrite Hc, Hm.
      simpl assigned. rewrite (owed_cons (m_Handle s) (raw :: assigned os)).
      now rewrite <- app_assoc.
Qed.

Lemma owed_adopted (raw : option HANDLE) (os : list Op) :
  owed T (m_Handle (Handle_ctor T raw) :: assigned os)
  = owed T (adopted raw os).
Proof.
  destruct raw as [h|]; simpl.
  - reflexivity.
  - now rewrite (owed_cons (InvalidHandleValue T)), owed_sentinel.
Qed.

Lemma lifetime_calls (raw : option HANDLE) (os : list Op) :
  calls (trace (lifetime T raw os)) = owed T (adopted raw os).
Proof.
  unfold lifetime, Handle_dtor. rewrite exec_bind.
  destruct (Close_calls (exec (steps T os) (Handle_ctor T raw))) as [Hc _].
  rewrite Hc, steps_calls. apply owed_adopted.
Qed.

Lemma times_released_owed (h : HANDLE) (hs : list HANDLE) :
  List.length (filter (fun c => snd c =? h) (owed T hs))
  = if Traits_Valid T h then times_adopted h hs else 0%nat.
Proof.
  unfold owed, times_adopted.
  induction hs as [|x hs IH]; simpl.
  - now destruct (Traits_Valid T h).
  - destruct (Traits_Valid T x) eqn:Hx; simpl.
    + destruct (x =? h) eqn:Hxh; simpl; rewrite IH.
      * apply Z.eqb_eq in Hxh. subst x. now rewrite Hx.
      * reflexivity.
    + rewrite IH. destruct (x =? h) eqn:Hxh; [|reflexivity].
      apply Z.eqb_eq in Hxh. subst x. now rewrite Hx.
Qed.

End WrapperFacts.

(** ** The wrapper's contract *)

Section Contract.

Variable T : Traits.

(** C2 (amended).  Over a whole life of one wrapper (construction, any
    sequence of [Close] and assignments, destruction) the release calls are
    exactly one per adoption of a non-sentinel value, in the order of
    adoption: a value is released as many times as the wrapper was given
    it, once when it was given once, and a sentinel never is.  At every
    point of that life the values given so far have had their call, except
    the one still held; and whichever of [Close], assignment or destruction
    comes next makes the one call the held value is owed. *)
Theorem C2_release_once_per_adoption
    (raw : option HANDLE) (os : list Op) :
  calls (trace (lifetime T raw os)) = owed T (adopted raw os)
  /\ (forall h : HANDLE,
        times_released h (trace (lifetime T raw os))
        = if Traits_Valid T h then times_adopted h (adopted raw os)
          else 0%nat)
  /\ calls (trace (exec (steps T os) (Handle_ctor T raw)))
       ++ owed T [m_Handle (exec (steps T os) (Handle_ctor T raw))]
     = owed T (adopted raw os)
  /\ (forall (s : Object) (o : Op),
        calls (trace (exec (step T o) s))
        = calls (trace s) ++ owed T [m_Handle s])
  /\ (forall s : Object,
        calls (trace (exec (Handle_dtor T) s))
        = calls (trace s) ++ owed T [m_Handle s]).
Proof.
  split; [apply lifetime_calls|].
  split.
  { intros h. unfold times_released. rewrite lifetime_calls.
    apply times_released_owed. }
  split.
  { rewrite (steps_calls T os (Handle_ctor T raw)). apply owed_adopted. }
  split.
  - intros s [|r]; simpl step.
    + apply Close_calls.
    + apply assign_calls.
  - intros s. apply Close_calls.
Qed.

(** C3.  [Close] on a wrapper whose held value differs from the sentinel
    makes exactly one call of the category's close function, with the held
    value, then stores the sentinel, after which [Valid()] is false;
    [Close] on a wrapper holding the sentinel, any number of times, changes
    nothing: no call is made and the wrapper stays invalid. *)
Theorem C3_Close_once_then_noop (s : Object) :
  (m_Handle s <> InvalidHandleValue T ->
     exec (Close T) s
     = {| m_Handle := InvalidHandleValue T;
          trace := trace s ++ [Call (handleCloseFunction T) (m_Handle s);
                               Store (InvalidHandleValue T)] |}
     /\ calls (trace (exec (Close T) s))
        = calls (trace s) ++ [release T (m_Handle s)]
     /\ result (Valid T) (exec (Close T) s) = false)
  /\ (m_Handle s = InvalidHandleValue T ->
      forall n : nat,
        exec (steps T (repeat OpClose n)) s = s
        /\ result (Valid T) (exec (steps T (repeat OpClose n)) s) = false).
Proof.
  split.
  - intros Hne. apply Traits_Valid_true in Hne.
    rewrite (Close_valid T s Hne). simpl.
    rewrite calls_app. repeat split.
    unfold result. rewrite Valid_run. simpl. apply Traits_Valid_sentinel.
  - intros He n. apply Traits_Valid_false in He.
    assert (Hn : exec (steps T (repeat OpClose n)) s = s).
    { induction n as [|n IH]; simpl.
      - reflexivity.
      - rewrite exec_bind. simpl step. now rewrite (Close_invalid T s He). }
    rewrite Hn. split; [reflexivity|].
    unfold result. now rewrite Valid_run.
Qed.

(** C4.  Assigning [raw2] to a wrapper that holds a valid [raw1] makes
    exactly one call of the category's close function, with [raw1], and
    that call comes before [raw2] is stored; afterwards [Get()] is
    [raw2]. *)
Theorem C4_assign_releases_previous_first
    (raw1 raw2 : HANDLE) (tr : list Effect) :
  raw1 <> InvalidHandleValue T ->
  trace (exec (assign T raw2) {| m_Handle := raw1; trace := tr |})
  = tr ++ [Call (handleCloseFunction T) raw1;
           Store (InvalidHandleValue T); Store raw2]
  /\ calls (trace (exec (assign T raw2) {| m_Handle := raw1; trace := tr |}))
     = calls tr ++ [release T raw1]
  /\ result Get (exec (assign T raw2) {| m_Handle := raw1; trace := tr |})
     = raw2.
Proof.
  intros Hne. apply Traits_Valid_true in Hne.
  rewrite (assign_valid T raw2 {| m_Handle := raw1; trace := tr |} Hne).
  simpl. rewrite calls_app. repeat split.
Qed.

(** C5.  The destructor behaves as [Close]: on a wrapper holding a valid
    value it makes exactly one call of the category's close function, with
    that value; on a wrapper holding the sentinel it makes none. *)
Theorem C5_destructor_is_Close (s : Object) :
  exec (Handle_dtor T) s = exec (Close T) s
  /\ (m_Handle s <> InvalidHandleValue T ->
      trace (exec (Handle_dtor T) s)
      = trace s ++ [Call (handleCloseFunction T) (m_Handle s);
                    Store (InvalidHandleValue T)]
      /\ calls (trace (exec (Handle_dtor T) s))
         = calls (trace s) ++ [release T (m_Handle s)])
  /\ (m_Handle s = InvalidHandleValue T -> exec (Handle_dtor T) s = s).
Proof.
  split; [reflexivity|]. unfold Handle_dtor. split.
  - intros Hne. apply Traits_Valid_true in Hne.
    rewrite (Close_valid T s Hne). simpl. rewrite calls_app. now split.
  - intros He. apply Traits_Valid_false in He.
    apply (Close_invalid T s He).
Qed.

(** C6.  Whatever the category's traits, [Valid()] is false when the held
    value equals the sentinel and true for every other held value, and it
    changes neither the held value nor the trace. *)
Theorem C6_Valid_compares_with_sentinel (raw : HANDLE) (tr : list Effect) :
  (raw = InvalidHandleValue T ->
     result (Valid T) {| m_Handle := raw; trace := tr |} = false)
  /\ (raw <> InvalidHandleValue T ->
      result (Valid T) {| m_Handle := raw; trace := tr |} = true)
  /\ exec (Valid T) {| m_Handle := raw; trace := tr |}
     = {| m_Handle := raw; trace := tr |}.
Proof.
  unfold result, exec. rewrite Valid_run. simpl. repeat split.
  - intros He. now apply Traits_Valid_false.
  - intros Hne. now apply Traits_Valid_true.
Qed.

(** C8.  The conversion operator returns the held value, agrees with
    [Get()], and leaves the wrapper as it was, so a later [Close] or
    destruction does what it would have done without the conversion: it
    still makes the call the held value is owed. *)
Theorem C8_conversion_keeps_ownership (s : Object) :
  result operator_Type s = m_Handle s
  /\ result operator_Type s = result Get s
  /\ exec operator_Type s = s
  /\ exec (Close T) (exec operator_Type s) = exec (Close T) s
  /\ exec (Handle_dtor T) (exec operator_Type s) = exec (Handle_dtor T) s
  /\ calls (trace (exec (Close T) (exec operator_Type s)))
     = calls (trace s) ++ owed T [m_Handle s]
  /\ calls (trace (exec (Handle_dtor T) (exec operator_Type s)))
     = calls (trace s) ++ owed T [m_Handle s].
Proof.
  repeat split; apply Close_calls.
Qed.

(** C9.  Assigning the sentinel to a wrapper that holds a valid value does
    what [Close] does: the same single release call, of the value held
    before, and the wrapper ends up holding the sentinel and invalid (the
    assignment only stores the sentinel a second time).  Destroying the
    wrapper afterwards does nothing, so the sentinel is never released. *)
Theorem C9_assigning_sentinel_is_Close (s : Object) :
  m_Handle s <> InvalidHandleValue T ->
  m_Handle (exec (assign T (InvalidHandleValue T)) s)
  = m_Handle (exec (Close T) s)
  /\ calls (trace (exec (assign T (InvalidHandleValue T)) s))
     = calls (trace (exec (Close T) s))
  /\ trace (exec (assign T (InvalidHandleValue T)) s)
     = trace (exec (Close T) s) ++ [Store (InvalidHandleValue T)]
  /\ calls (trace (exec (assign T (InvalidHandleValue T)) s))
     = calls (trace s) ++ [release T (m_Handle s)]
  /\ m_Handle (exec (assign T (InvalidHandleValue T)) s)
     = InvalidHandleValue T
  /\ result (Valid T) (exec (assign T (InvalidHandleValue T)) s) = false
  /\ exec (Handle_dtor T) (exec (assign T (InvalidHandleValue T)) s)
     = exec (assign T (InvalidHandleValue T)) s.
Proof.
  intros Hne. apply Traits_Valid_true in Hne.
  rewrite (assign_valid T _ s Hne), (Close_valid T s Hne). simpl.
  rewrite !calls_app. simpl. repeat split.
  - now rewrite <- app_assoc.
  - unfold result. rewrite Valid_run. simpl. apply Traits_Valid_sentinel.
  - apply Close_invalid. simpl. apply Traits_Valid_sentinel.
Qed.

End Contract.

(** ** The contract at concrete wrappers *)

(** The scenario of a file handle 42 (and of a registry key 42): the traits
    are those [Handle_Traits] resolves for [TaggedHandle File] and [HKEY]. *)
Example Handle_Traits_File :
  Handle_Traits (TaggedHandle File)
  = Compiled (CREATE_HANDLE_TRAITS INVALID_HANDLE_VALUE CloseHandle).
Proof. reflexivity. Qed.

Example lifetime_42_then_7 :
  calls (trace (lifetime (CREATE_HANDLE_TRAITS nullptr CloseHandle) None
                         [OpAssign 42; OpAssign 7]))
  = [(CloseHandle, 42); (CloseHandle, 7)].
Proof. reflexivity. Qed.

Example lifetime_same_value_twice :
  calls (trace (lifetime (CREATE_HANDLE_TRAITS nullptr CloseHandle) (Some 5)
                         [OpAssign 5; OpClose; OpClose]))
  = [(CloseHandle, 5); (CloseHandle, 5)].
Proof. reflexivity. Qed.

(** C2 (as stated, fails on the code).  A wrapper constructed from 5 and
    then assigned 5 releases the value 5 twice over its life: at the
    assignment and at destruction. *)
Lemma C2_counterexample :
  In 5 (adopted (Some 5) [OpAssign 5])
  /\ Traits_Valid (CREATE_HANDLE_TRAITS INVALID_HANDLE_VALUE CloseHandle) 5
     = true
  /\ calls (trace (lifetime (CREATE_HANDLE_TRAITS INVALID_HANDLE_VALUE
                                                  CloseHandle)
                            (Some 5) [OpAssign 5]))
     = [(CloseHandle, 5); (CloseHandle, 5)]
  /\ times_released
       5 (trace (lifetime (CREATE_HANDLE_TRAITS INVALID_HANDLE_VALUE
                                                CloseHandle)
                          (Some 5) [OpAssign 5]))
     = 2%nat
  /\ times_released
       5 (trace (lifetime (CREATE_HANDLE_TRAITS INVALID_HANDLE_VALUE
                                                CloseHandle)
                          (Some 5) [OpAssign 5]))
     <> 1%nat.
Proof.
  split; [now left|]. repeat split. discriminate.
Qed.

Lemma C3_witness :
  (m_Handle {| m_Handle := 42; trace := [] |}
   <> InvalidHandleValue (CREATE_HANDLE_TRAITS INVALID_HANDLE_VALUE CloseHandle)
   /\ exec (Close (CREATE_HANDLE_TRAITS INVALID_HANDLE_VALUE CloseHandle))
           {| m_Handle := 42; trace := [] |}
      = {| m_Handle := -1;
           trace := [Call CloseHandle 42; Store (-1)] |})
  /\ (m_Handle {| m_Handle := -1; trace := [] |}
      = InvalidHandleValue (CREATE_HANDLE_TRAITS INVALID_HANDLE_VALUE CloseHandle)
      /\ exec (steps (CREATE_HANDLE_TRAITS INVALID_HANDLE_VALUE CloseHandle)
                     (repeat OpClose 3))
              {| m_Handle := -1; trace := [] |}
         = {| m_Handle := -1; trace := [] |}).
Proof.
  split.
  - assert (H : m_Handle {| m_Handle := 42; trace := [] |}
                <> InvalidHandleValue
                     (CREATE_HANDLE_TRAITS INVALID_HANDLE_VALUE CloseHandle))
      by (vm_compute; discriminate).
    split; [exact H|].
    exact (proj1 (proj1 (C3_Close_once_then_noop
                           (CREATE_HANDLE_TRAITS INVALID_HANDLE_VALUE CloseHandle)
                           {| m_Handle := 42; trace := [] |}) H)).
  - split; [reflexivity|].
    exact (proj1 (proj2 (C3_Close_once_then_noop
                           (CREATE_HANDLE_TRAITS INVALID_HANDLE_VALUE CloseHandle)
                           {| m_Handle := -1; trace := [] |}) eq_refl 3%nat)).
Defined.

Lemma C4_witness :
  42 <> InvalidHandleValue (CREATE_HANDLE_TRAITS nullptr RegCloseKey)
  /\ trace (exec (assign (CREATE_HANDLE_TRAITS nullptr RegCloseKey) 7)
                 {| m_Handle := 42; trace := [] |})
     = [Call RegCloseKey 42; Store 0; Store 7]
  /\ calls (trace (exec (assign (CREATE_HANDLE_TRAITS nullptr RegCloseKey) 7)
                        {| m_Handle := 42; trace := [] |}))
     = [(RegCloseKey, 42)]
  /\ result Get (exec (assign (CREATE_HANDLE_TRAITS nullptr RegCloseKey) 7)
                      {| m_Handle := 42; trace := [] |})
     = 7.
Proof.
  assert (H : 42 <> InvalidHandleValue (CREATE_HANDLE_TRAITS nullptr RegCloseKey))
    by (vm_compute; discriminate).
  split; [exact H|].
  exact (C4_assign_releases_previous_first
           (CREATE_HANDLE_TRAITS nullptr RegCloseKey) 42 7 [] H).
Defined.

Lemma C5_witness :
  (m_Handle {| m_Handle := 42; trace := [] |}
   <> InvalidHandleValue (CREATE_HANDLE_TRAITS nullptr CloseHandle)
   /\ calls (trace (exec (Handle_dtor (CREATE_HANDLE_TRAITS nullptr CloseHandle))
                         {| m_Handle := 42; trace := [] |}))
      = [(CloseHandle, 42)])
  /\ (m_Handle {| m_Handle := 0; trace := [] |}
      = InvalidHandleValue (CREATE_HANDLE_TRAITS nullptr CloseHandle)
      /\ exec (Handle_dtor (CREATE_HANDLE_TRAITS nullptr CloseHandle))
              {| m_Handle := 0; trace := [] |}
         = {| m_Handle := 0; trace := [] |}).
Proof.
  split.
  - assert (H : m_Handle {| m_Handle := 42; trace := [] |}
                <> InvalidHandleValue (CREATE_HANDLE_TRAITS nullptr CloseHandle))
      by (vm_compute; discriminate).
    split; [exact H|].
    exact (proj2 (proj1 (proj2 (C5_destructor_is_Close
                                  (CREATE_HANDLE_TRAITS nullptr CloseHandle)
                                  {| m_Handle := 42; trace := [] |})) H)).
  - split; [reflexivity|].
    exact (proj2 (proj2 (C5_destructor_is_Close
                           (CREATE_HANDLE_TRAITS nullptr CloseHandle)
                           {| m_Handle := 0; trace := [] |})) eq_refl).
Defined.

Lemma C6_witness :
  (-1 = InvalidHandleValue (CREATE_HANDLE_TRAITS INVALID_HANDLE_VALUE CloseHandle)
   /\ result (Valid (CREATE_HANDLE_TRAITS INVALID_HANDLE_VALUE CloseHandle))
             {| m_Handle := -1; trace := [] |} = false)
  /\ (0 <> InvalidHandleValue (CREATE_HANDLE_TRAITS INVALID_HANDLE_VALUE CloseHandle)
      /\ result (Valid (CREATE_HANDLE_TRAITS INVALID_HANDLE_VALUE CloseHandle))
                {| m_Handle := 0; trace := [] |} = true).
Proof.
  split.
  - split; [reflexivity|].
    exact (proj1 (C6_Valid_compares_with_sentinel
                    (CREATE_HANDLE_TRAITS INVALID_HANDLE_VALUE CloseHandle)
                    (-1) []) eq_refl).
  - assert (H : 0 <> InvalidHandleValue
                       (CREATE_HANDLE_TRAITS INVALID_HANDLE_VALUE CloseHandle))
      by (vm_compute; discriminate).
    split; [exact H|].
    exact (proj1 (proj2 (C6_Valid_compares_with_sentinel
                           (CREATE_HANDLE_TRAITS INVALID_HANDLE_VALUE CloseHandle)
                           0 [])) H).
Defined.

Lemma C9_witness :
  m_Handle {| m_Handle := 42; trace := [] |}
  <> InvalidHandleValue (CREATE_HANDLE_TRAITS INVALID_HANDLE_VALUE CloseHandle)
  /\ calls (trace (exec (assign (CREATE_HANDLE_TRAITS INVALID_HANDLE_VALUE
                                                      CloseHandle) (-1))
                        {| m_Handle := 42; trace := [] |}))
     = calls (trace (exec (Close (CREATE_HANDLE_TRAITS INVALID_HANDLE_VALUE
                                                       CloseHandle))
                          {| m_Handle := 42; trace := [] |})).
Proof.
  assert (H : m_Handle {| m_Handle := 42; trace := [] |}
              <> InvalidHandleValue
                   (CREATE_HANDLE_TRAITS INVALID_HANDLE_VALUE CloseHandle))
    by (vm_compute; discriminate).
  split; [exact H|].
  exact (proj1 (proj2 (C9_assigning_sentinel_is_Close
                         (CREATE_HANDLE_TRAITS INVALID_HANDLE_VALUE CloseHandle)
                         {| m_Handle := 42; trace := [] |} H))).
Defined.

(** * Further properties of the header and of its caller *)

(** ** The compile-time layer *)

(** X1.  No tag satisfies both concepts, and the two sentinels differ, so the
    order of the two branches of [GetHandleInvalidValue] does not matter, and
    the resolved sentinel tells the two families apart. *)
Theorem sentinel_families_are_disjoint (_Tag : Tag) :
  HandleValueNull _Tag && HandleValueInvalid _Tag = false
  /\ GetHandleInvalidValue _Tag = GetHandleInvalidValue_swapped _Tag
  /\ compiles (GetHandleInvalidValue _Tag)
     = xorb (HandleValueNull _Tag) (HandleValueInvalid _Tag)
  /\ (nullptr =? INVALID_HANDLE_VALUE) = false.
Proof.
  unfold GetHandleInvalidValue, GetHandleInvalidValue_swapped.
  destruct _Tag; repeat split.
Qed.

(** X2.  Each of the eleven types the macro is applied to gets traits whose
    sentinel is the null value and whose close function is not
    [CloseHandle]; so a wrapper of such a type is valid exactly when it
    holds a non-zero value. *)
Theorem macro_traits_use_null_sentinel (_Ty : Ty) :
  has_macro_entry _Ty = true ->
  exists T : Traits,
    Handle_Traits _Ty = Compiled T
    /\ InvalidHandleValue T = nullptr
    /\ handleCloseFunction T <> CloseHandle
    /\ forall (raw : HANDLE) (tr : list Effect),
         result (Valid T) {| m_Handle := raw; trace := tr |}
         = negb (raw =? 0).
Proof.
  intros Hm.
  destruct _Ty as [tag| | | | | | | | | | | |name]; try discriminate Hm;
    (eexists; split; [reflexivity|]; repeat split; discriminate).
Qed.

Lemma macro_traits_use_null_sentinel_witness :
  has_macro_entry SOCKET = true
  /\ exists T : Traits,
       Handle_Traits SOCKET = Compiled T
       /\ InvalidHandleValue T = nullptr
       /\ handleCloseFunction T <> CloseHandle
       /\ forall (raw : HANDLE) (tr : list Effect),
            result (Valid T) {| m_Handle := raw; trace := tr |}
            = negb (raw =? 0).
Proof.
  split; [reflexivity|].
  exact (macro_traits_use_null_sentinel SOCKET eq_refl).
Defined.

(** ** The owning wrapper *)

Section WrapperComposition.

Variable T : Traits.

Lemma Forall_owed (hs : list HANDLE) :
  Forall (fun c => fst c = handleCloseFunction T
                   /\ snd c <> InvalidHandleValue T)
         (owed T hs).
Proof.
  unfold owed. induction hs as [|h hs IH]; simpl.
  - constructor.
  - destruct (Traits_Valid T h) eqn:Hv; [|exact IH].
    simpl. constructor; [|exact IH].
    split; [reflexivity|]. simpl. now apply Traits_Valid_true.
Qed.

Lemma write_through_run (v : HANDLE) (s : Object) :
  exec (p <- operator_address_of ;; write_through p v) s
  = {| m_Handle := v; trace := trace s ++ [Store v] |}.
Proof. reflexivity. Qed.

(** X4.  An assignment to a wrapper that holds the sentinel makes no call
    and only stores the value; afterwards [Get()] returns that value and the
    wrapper is valid exactly when the value is not the sentinel. *)
Theorem assign_adopts (raw : HANDLE) (s : Object) :
  m_Handle s = InvalidHandleValue T ->
  exec (assign T raw) s
  = {| m_Handle := raw; trace := trace s ++ [Store raw] |}
  /\ calls (trace (exec (assign T raw) s)) = calls (trace s)
  /\ result Get (exec (assign T raw) s) = raw
  /\ result (Valid T) (exec (assign T raw) s)
     = negb (raw =? InvalidHandleValue T).
Proof.
  intros He. apply Traits_Valid_false in He.
  rewrite (assign_invalid T raw s He). simpl.
  rewrite calls_app. simpl. rewrite app_nil_r. repeat split.
Qed.

(** X5.  The assignment has no check for the value already held: assigning
    a valid wrapper its own value releases that value and keeps it as the
    held, valid value, so that the destructor releases it a second time. *)
Theorem self_assignment_releases_twice (s : Object) :
  m_Handle s <> InvalidHandleValue T ->
  m_Handle (exec (assign T (result Get s)) s) = m_Handle s
  /\ result (Valid T) (exec (assign T (result Get s)) s) = true
  /\ calls (trace (exec (assign T (result Get s)) s))
     = calls (trace s) ++ [release T (m_Handle s)]
  /\ calls (trace (exec (Handle_dtor T) (exec (assign T (result Get s)) s)))
     = calls (trace s) ++ [release T (m_Handle s); release T (m_Handle s)].
Proof.
  intros Hne. apply Traits_Valid_true in Hne.
  unfold Handle_dtor. change (result Get s) with (m_Handle s).
  rewrite (assign_valid T (m_Handle s) s Hne).
  split; [reflexivity|]. split; [exact Hne|].
  split; [simpl; now rewrite calls_app|].
  rewrite Close_valid by exact Hne. simpl.
  rewrite !calls_app. simpl. now rewrite <- app_assoc.
Qed.

(** X6.  From any object, through any sequence of [Close] and assignments
    and the destructor, every call the wrapper makes is a call of its own
    category's close function, and none has the sentinel as its argument. *)
Theorem only_own_close_function_never_on_sentinel
    (os : list Op) (s : Object) :
  calls (trace (exec (steps T os ;; Handle_dtor T) s))
  = calls (trace s) ++ owed T (m_Handle s :: assigned os)
  /\ Forall (fun c => fst c = handleCloseFunction T
                      /\ snd c <> InvalidHandleValue T)
            (owed T (m_Handle s :: assigned os)).
Proof.
  split; [|apply Forall_owed].
  rewrite exec_bind. unfold Handle_dtor.
  destruct (Close_calls T (exec (steps T os) s)) as [Hc _].
  rewrite Hc. apply steps_calls.
Qed.

(** X7.  A write through the pointer [operator&] returns replaces the held
    value without releasing it: where an assignment followed by destruction
    releases the value held before and then the new one, the write followed
    by destruction releases the new one only. *)
Theorem address_of_write_skips_release (v : HANDLE) (s : Object) :
  exec operator_address_of s = s
  /\ exec (p <- operator_address_of ;; write_through p v) s
     = {| m_Handle := v; trace := trace s ++ [Store v] |}
  /\ calls (trace (exec ((p <- operator_address_of ;; write_through p v)
                         ;; Handle_dtor T) s))
     = calls (trace s) ++ owed T [v]
  /\ calls (trace (exec (assign T v ;; Handle_dtor T) s))
     = calls (trace s) ++ owed T [m_Handle s] ++ owed T [v].
Proof.
  split; [reflexivity|]. split; [reflexivity|]. split.
  - rewrite exec_bind, write_through_run. unfold Handle_dtor.
    destruct (Close_calls T {| m_Handle := v; trace := trace s ++ [Store v] |})
      as [Hc _].
    rewrite Hc. simpl trace. rewrite calls_app. simpl calls.
    now rewrite app_nil_r.
  - rewrite exec_bind. unfold Handle_dtor.
    destruct (Close_calls T (exec (assign T v) s)) as [Hc _].
    destruct (assign_calls T v s) as [Ha Hm].
    rewrite Hc, Ha, Hm. now rewrite <- app_assoc.
Qed.

(** X8.  An explicit [Close] before another [Close], before an assignment
    or before the destructor changes nothing: the second operation alone
    leaves the same object and the same trace. *)
Theorem Close_is_absorbed (raw : HANDLE) (s : Object) :
  exec (Close T ;; Close T) s = exec (Close T) s
  /\ exec (Close T ;; assign T raw) s = exec (assign T raw) s
  /\ exec (Close T ;; Handle_dtor T) s = exec (Handle_dtor T) s.
Proof.
  assert (Hcc : exec (Close T ;; Close T) s = exec (Close T) s).
  { rewrite exec_bind. apply Close_invalid.
    destruct (Close_calls T s) as [_ Hm]. rewrite Hm.
    apply Traits_Valid_sentinel. }
  split; [exact Hcc|]. split; [|exact Hcc].
  rewrite exec_bind.
  destruct (Traits_Valid T (m_Handle s)) eqn:Hv.
  - rewrite (Close_valid T s Hv), (assign_valid T raw s Hv).
    rewrite assign_invalid by (simpl; apply Traits_Valid_sentinel).
    simpl. now rewrite <- app_assoc.
  - now rewrite (Close_invalid T s Hv).
Qed.

End WrapperComposition.

(** X9.  The conversion (or [Get]) hands out the held value and keeps it:
    when its result is assigned to a second wrapper, both wrappers hold the
    value as valid, and the destructor of each releases it, so it is
    released twice. *)
Theorem conversion_result_assigned_is_owned_twice
    (TA TB : Traits) (a b : Object) :
  m_Handle b <> InvalidHandleValue TB ->
  m_Handle b <> InvalidHandleValue TA ->
  m_Handle (exec (assign TA (result operator_Type b)) a) = m_Handle b
  /\ m_Handle (exec operator_Type b) = m_Handle b
  /\ calls (trace (exec (Handle_dtor TA)
                        (exec (assign TA (result operator_Type b)) a)))
     = calls (trace a) ++ owed TA [m_Handle a] ++ [release TA (m_Handle b)]
  /\ calls (trace (exec (Handle_dtor TB) (exec operator_Type b)))
     = calls (trace b) ++ [release TB (m_Handle b)].
Proof.
  intros HB HA. change (result operator_Type b) with (m_Handle b).
  change (exec operator_Type b) with b.
  destruct (assign_calls TA (m_Handle b) a) as [Hc Hm].
  split; [exact Hm|]. split; [reflexivity|]. unfold Handle_dtor. split.
  - destruct (Close_calls TA (exec (assign TA (m_Handle b)) a)) as [Hd _].
    rewrite Hd, Hc, Hm. unfold owed at 2. simpl.
    apply Traits_Valid_true in HA. rewrite HA. simpl.
    now rewrite <- app_assoc.
  - destruct (Close_calls TB b) as [Hd _]. rewrite Hd.
    unfold owed. simpl. apply Traits_Valid_true in HB. now rewrite HB.
Qed.

(** ** The caller *)

Lemma main_is_built :
  main = Compiled (main_body (CREATE_HANDLE_TRAITS nullptr CloseHandle)
                             (CREATE_HANDLE_TRAITS INVALID_HANDLE_VALUE
                                                   CloseHandle)).
Proof. reflexivity. Qed.

Lemma main_body_paint (TP : Traits) (opened : HANDLE) :
  exec (assign TP opened) (Handle_ctor TP None)
  = {| m_Handle := opened; trace := [Store opened] |}.
Proof.
  rewrite assign_invalid by apply Traits_Valid_sentinel. reflexivity.
Qed.

Lemma main_body_trace (TP TF : Traits) (opened created : HANDLE) :
  effects (main_body TP TF opened created)
  = Store opened
    :: (if Traits_Valid TP opened then
          (if Traits_Valid TF created
           then [Call (handleCloseFunction TF) created;
                 Store (InvalidHandleValue TF)]
           else [])
          ++ [Call (handleCloseFunction TP) opened;
              Store (InvalidHandleValue TP)]
        else []).
Proof.
  unfold main_body. rewrite main_body_paint.
  unfold result, Handle_dtor. rewrite !Valid_run. simpl fst.
  destruct (Traits_Valid TP opened) eqn:Ho; simpl negb; cbv iota.
  - unfold at_log. simpl m_Handle. simpl trace.
    destruct (Traits_Valid TF created) eqn:Hc; simpl negb; cbv iota;
      simpl effects.
    + rewrite (Close_valid TF) by exact Hc. simpl trace. simpl m_Handle.
      rewrite (Close_valid TP) by exact Ho. reflexivity.
    + rewrite (Close_invalid TF) by exact Hc. simpl trace.
      rewrite (Close_valid TP) by exact Ho. reflexivity.
  - simpl effects. rewrite (Close_invalid TP) by exact Ho. reflexivity.
Qed.

Lemma main_body_exit (TP TF : Traits) (opened created : HANDLE) :
  exit_code (main_body TP TF opened created)
  = (if Traits_Valid TP opened && Traits_Valid TF created
     then EXIT_SUCCESS else EXIT_FAILURE)
  /\ cout (main_body TP TF opened created)
     = (if Traits_Valid TP opened then
          if Traits_Valid TF created then []
          else [append "Failed to create file handle" newline]
        else [append "Failed to create process handle" newline]).
Proof.
  unfold main_body. rewrite main_body_paint.
  unfold result. rewrite !Valid_run. simpl fst. unfold at_log. simpl m_Handle.
  destruct (Traits_Valid TP opened); simpl; [|now split].
  destruct (Traits_Valid TF created); simpl; now split.
Qed.

(** X10.  [main] is built, and it returns [EXIT_SUCCESS] exactly when
    [OpenProcess] returned a value other than null and [CreateFile] a value
    other than [INVALID_HANDLE_VALUE]; otherwise it returns [EXIT_FAILURE]
    after writing the message of the first of the two that failed. *)
Theorem main_exit_code :
  exists run : HANDLE -> HANDLE -> Outcome,
    main = Compiled run
    /\ forall opened created : HANDLE,
         exit_code (run opened created)
         = (if (opened =? nullptr) || (created =? INVALID_HANDLE_VALUE)
            then EXIT_FAILURE else EXIT_SUCCESS)
         /\ cout (run opened created)
            = (if opened =? nullptr
               then [append "Failed to create process handle" newline]
               else if created =? INVALID_HANDLE_VALUE
               then [append "Failed to create file handle" newline]
               else []).
Proof.
  eexists. split; [exact main_is_built|].
  intros opened created.
  destruct (main_body_exit (CREATE_HANDLE_TRAITS nullptr CloseHandle)
              (CREATE_HANDLE_TRAITS INVALID_HANDLE_VALUE CloseHandle)
              opened created) as [He Hc].
  rewrite He, Hc. unfold Traits_Valid. simpl InvalidHandleValue.
  destruct (opened =? nullptr); simpl; [now split|].
  destruct (created =? INVALID_HANDLE_VALUE); simpl; now split.
Qed.

(** X11.  On every path through [main] each valid handle it obtained is
    released exactly once, the file handle before the process handle, and
    nothing else is released: nothing when [OpenProcess] failed, the process
    handle alone when [CreateFile] failed. *)
Theorem main_releases_what_it_opened :
  exists run : HANDLE -> HANDLE -> Outcome,
    main = Compiled run
    /\ forall opened created : HANDLE,
         calls (effects (run opened created))
         = if opened =? nullptr then []
           else (if created =? INVALID_HANDLE_VALUE then []
                 else [(CloseHandle, created)])
                ++ [(CloseHandle, opened)].
Proof.
  eexists. split; [exact main_is_built|].
  intros opened created. rewrite main_body_trace.
  unfold Traits_Valid. simpl InvalidHandleValue. simpl handleCloseFunction.
  destruct (opened =? nullptr); [reflexivity|].
  now destruct (created =? INVALID_HANDLE_VALUE).
Qed.

(** ** The further properties at concrete wrappers *)

Lemma assign_adopts_witness :
  m_Handle (Handle_ctor (CREATE_HANDLE_TRAITS nullptr CloseHandle) None)
  = InvalidHandleValue (CREATE_HANDLE_TRAITS nullptr CloseHandle)
  /\ exec (assign (CREATE_HANDLE_TRAITS nullptr CloseHandle) 42)
          (Handle_ctor (CREATE_HANDLE_TRAITS nullptr CloseHandle) None)
     = {| m_Handle := 42; trace := [Store 42] |}.
Proof.
  split; [reflexivity|].
  exact (proj1 (assign_adopts (CREATE_HANDLE_TRAITS nullptr CloseHandle) 42
                  (Handle_ctor (CREATE_HANDLE_TRAITS nullptr CloseHandle) None)
                  eq_refl)).
Defined.

Lemma self_assignment_releases_twice_witness :
  m_Handle {| m_Handle := 42; trace := [] |}
  <> InvalidHandleValue (CREATE_HANDLE_TRAITS INVALID_HANDLE_VALUE CloseHandle)
  /\ calls (trace (exec (Handle_dtor (CREATE_HANDLE_TRAITS INVALID_HANDLE_VALUE
                                                          CloseHandle))
                        (exec (assign (CREATE_HANDLE_TRAITS
                                         INVALID_HANDLE_VALUE CloseHandle)
                                      (result Get
                                         {| m_Handle := 42; trace := [] |}))
                              {| m_Handle := 42; trace := [] |})))
     = [(CloseHandle, 42); (CloseHandle, 42)].
Proof.
  assert (H : m_Handle {| m_Handle := 42; trace := [] |}
              <> InvalidHandleValue
                   (CREATE_HANDLE_TRAITS INVALID_HANDLE_VALUE CloseHandle))
    by (vm_compute; discriminate).
  split; [exact H|].
  exact (proj2 (proj2 (proj2 (self_assignment_releases_twice
                                (CREATE_HANDLE_TRAITS INVALID_HANDLE_VALUE
                                                      CloseHandle)
                                {| m_Handle := 42; trace := [] |} H)))).
Defined.

Lemma conversion_result_assigned_is_owned_twice_witness :
  (m_Handle {| m_Handle := 42; trace := [] |}
   <> InvalidHandleValue (CREATE_HANDLE_TRAITS nullptr CloseHandle)
   /\ m_Handle {| m_Handle := 42; trace := [] |}
      <> InvalidHandleValue (CREATE_HANDLE_TRAITS INVALID_HANDLE_VALUE
                                                  CloseHandle))
  /\ calls (trace (exec (Handle_dtor (CREATE_HANDLE_TRAITS INVALID_HANDLE_VALUE
                                                          CloseHandle))
                        (exec (assign (CREATE_HANDLE_TRAITS
                                         INVALID_HANDLE_VALUE CloseHandle)
                                      (result operator_Type
                                         {| m_Handle := 42; trace := [] |}))
                              {| m_Handle := -1; trace := [] |})))
     = [(CloseHandle, 42)]
  /\ calls (trace (exec (Handle_dtor (CREATE_HANDLE_TRAITS nullptr CloseHandle))
                        (exec operator_Type
                              {| m_Handle := 42; trace := [] |})))
     = [(CloseHandle, 42)].
Proof.
  assert (HB : m_Handle {| m_Handle := 42; trace := [] |}
               <> InvalidHandleValue (CREATE_HANDLE_TRAITS nullptr CloseHandle))
    by (vm_compute; discriminate).
  assert (HA : m_Handle {| m_Handle := 42; trace := [] |}
               <> InvalidHandleValue
                    (CREATE_HANDLE_TRAITS INVALID_HANDLE_VALUE CloseHandle))
    by (vm_compute; discriminate).
  split; [split; [exact HB | exact HA]|].
  exact (proj2 (proj2 (conversion_result_assigned_is_owned_twice
                         (CREATE_HANDLE_TRAITS INVALID_HANDLE_VALUE CloseHandle)
                         (CREATE_HANDLE_TRAITS nullptr CloseHandle)
                         {| m_Handle := -1; trace := [] |}
                         {| m_Handle := 42; trace := [] |} HB HA))).
Defined.
